(** * Habit tracker: the in-memory repository and the habit service

    Shallow embedding of [src/models/habit.py],
    [src/repositories/habit_repository.py] and
    [src/services/habit_service.py].

    - A Python [str] is a sequence of Unicode code points: [text] below,
      whose [length] is Python's [len].
    - A [datetime.date] is its proleptic ordinal ([date.toordinal()]), a [Z];
      [(d1 - d2).days] is then [d1 - d2] and date comparison is [Z]
      comparison.
    - [date.today()] is read from the clock: every service operation that
      consults it takes the value it returns as an argument [today].
    - The repository's dict [Dict[int, Habit]] keeps insertion order: it is an
      association list, where assigning an existing key replaces the entry in
      place and assigning a new key appends it.
    - Exceptions are the error branch of a state/error monad whose state is
      the repository plus a log of the store accesses it performed (reads
      through [get_by_id]/[get_all], writes where the dict is mutated). *)

From Stdlib Require Import ZArith List String Bool Lia Sorting.Sorted.
Import ListNotations.
Open Scope Z_scope.

(** ** Models ([models/habit.py]) *)

Definition text := list N.

(** ASCII literals as Python strings (one code point per character). *)
Fixpoint of_ascii (s : string) : text :=
  match s with
  | EmptyString => []
  | String c s' => N.of_nat (Ascii.nat_of_ascii c) :: of_ascii s'
  end.

Inductive Status := Pending | Completed.

Definition Status_eqb (a b : Status) : bool :=
  match a, b with
  | Pending, Pending | Completed, Completed => true
  | _, _ => false
  end.

Record Habit := mkHabit {
  id : Z;
  name : text;
  description : option text;
  status : Status;
  streak_days : Z;
  last_completed_at : option Z
}.

(** The field constraints pydantic checks whenever [Habit(...)] is
    built: [name] 1..80 characters, [description] at most 280, [streak_days]
    [ge=0]; [status] is a [Literal] (the type [Status]). *)
Definition name_ok (n : text) : bool :=
  (1 <=? List.length n)%nat && (List.length n <=? 80)%nat.

Definition description_ok (d : option text) : bool :=
  match d with
  | None => true
  | Some t => (List.length t <=? 280)%nat
  end.

Definition habit_valid (h : Habit) : bool :=
  name_ok (name h) && description_ok (description h) && (0 <=? streak_days h).

(** The outcome of a pydantic model construction: [inl tt] is a raised
    [ValidationError]. *)
Definition ValidationErrorOr (A : Type) : Type := unit + A.

Record CreateHabitRequest := mkCreateHabitRequest {
  cr_name : text;
  cr_description : option text
}.

Definition create_request_valid (r : CreateHabitRequest) : bool :=
  name_ok (cr_name r) && description_ok (cr_description r).

(** [CreateHabitRequest(name=..., description=...)]: pydantic validates the
    field constraints when the request is built, raising [ValidationError]
    (mapped to 422 by the web layer before the service is called). *)
Definition CreateHabitRequest_new (n : text) (d : option text)
    : ValidationErrorOr CreateHabitRequest :=
  if name_ok n && description_ok d then inr (mkCreateHabitRequest n d)
  else inl tt.

Record UpdateHabitRequest := mkUpdateHabitRequest {
  ur_name : option text;
  ur_description : option text;
  ur_status : option Status
}.

Definition update_request_valid (r : UpdateHabitRequest) : bool :=
  match ur_name r with None => true | Some n => name_ok n end
  && description_ok (ur_description r).

Record StatsResponse := mkStatsResponse {
  total_habits : Z;
  completed_today : Z;
  active_streaks_ge_3 : Z
}.

(** Exceptions: the three service errors and pydantic's [ValidationError].
    [InvalidHabitDataError] carries [field] and [constraint]; its [value]
    (a rendering of the offending value) is kept as the value itself. *)
Inductive Value := VInt (z : Z) | VDate (d : Z) | VText (s : string).

Inductive Error :=
| HabitNotFound (habit_id : Z)
| DuplicateCompletion (habit_name : text) (completion_date : Z)
| InvalidHabitData (field : string) (value : Value) (constraint : string)
| ValidationError.

Definition is_invalid_habit_data (e : Error) : bool :=
  match e with InvalidHabitData _ _ _ => true | _ => false end.

(** ** The store state and the monad *)

Inductive Access :=
| ReadOne (k : Z)       (* get_by_id *)
| ReadAll               (* get_all *)
| WriteCreate (k : Z)   (* self._habits[self._next_id] = habit *)
| WriteUpdate (k : Z)   (* self._habits[habit_id] = updated_habit *)
| WriteDelete (k : Z).  (* del self._habits[habit_id] *)

Definition is_write (a : Access) : bool :=
  match a with ReadOne _ | ReadAll => false | _ => true end.

Record Repo := mkRepo {
  habits : list (Z * Habit);
  next_id : Z
}.

Record St := mkSt {
  repo : Repo;
  log : list Access
}.

Definition M (A : Type) := St -> (Error + A) * St.

Definition ret {A} (a : A) : M A := fun s => (inr a, s).
Definition raise {A} (e : Error) : M A := fun s => (inl e, s).
Definition bind {A B} (m : M A) (f : A -> M B) : M B :=
  fun s => match m s with
           | (inl e, s') => (inl e, s')
           | (inr a, s') => f a s'
           end.

Notation "'let*' x := m 'in' k" := (bind m (fun x => k))
  (at level 200, x name, m at level 100, k at level 200).

Definition get_repo : M Repo := fun s => (inr (repo s), s).
Definition put_repo (r : Repo) : M unit :=
  fun s => (inr tt, mkSt r (log s)).
Definition record (a : Access) : M unit :=
  fun s => (inr tt, mkSt (repo s) (log s ++ [a])).

(** ** Repository ([repositories/habit_repository.py]) *)

Fixpoint lookup (k : Z) (l : list (Z * Habit)) : option Habit :=
  match l with
  | [] => None
  | (k', h) :: l' => if k =? k' then Some h else lookup k l'
  end.

(** [d[k] = v]: replace in place if [k] is a key, otherwise append. *)
Fixpoint assign (k : Z) (v : Habit) (l : list (Z * Habit)) : list (Z * Habit) :=
  match l with
  | [] => [(k, v)]
  | (k', h) :: l' => if k =? k' then (k', v) :: l' else (k', h) :: assign k v l'
  end.

(** [del d[k]] *)
Fixpoint remove_key (k : Z) (l : list (Z * Habit)) : list (Z * Habit) :=
  match l with
  | [] => []
  | (k', h) :: l' => if k =? k' then l' else (k', h) :: remove_key k l'
  end.

Definition empty_repo : Repo := mkRepo [] 1.
Definition init_st : St := mkSt empty_repo [].

(** The dict passed to [create]: every field but [id]. *)
Record HabitData := mkHabitData {
  hd_name : text;
  hd_description : option text;
  hd_status : Status;
  hd_streak_days : Z;
  hd_last_completed_at : option Z
}.

Definition HabitRepository_create (d : HabitData) : M Habit :=
  let* r := get_repo in
  let h := mkHabit (next_id r) (hd_name d) (hd_description d) (hd_status d)
                   (hd_streak_days d) (hd_last_completed_at d) in
  if negb (habit_valid h) then raise ValidationError else
  (* self._habits[self._next_id] = habit; self._next_id += 1 *)
  let* _ := put_repo (mkRepo (assign (next_id r) h (habits r)) (next_id r + 1)) in
  let* _ := record (WriteCreate (next_id r)) in
  ret h.

Definition HabitRepository_get_by_id (k : Z) : M (option Habit) :=
  let* r := get_repo in
  let* _ := record (ReadOne k) in
  ret (lookup k (habits r)).

Definition HabitRepository_get_all : M (list Habit) :=
  let* r := get_repo in
  let* _ := record ReadAll in
  ret (map snd (habits r)).

(** The [updates] dict: a key is present ([Some]) or absent ([None]). *)
Record Updates := mkUpdates {
  up_name : option text;
  up_description : option (option text);
  up_status : option Status;
  up_streak_days : option Z;
  up_last_completed_at : option (option Z)
}.

Definition pick {A} (o : option A) (a : A) : A :=
  match o with Some x => x | None => a end.

(** [updated_data = current_habit.dict(); updated_data.update(updates)] *)
Definition merge (h : Habit) (u : Updates) : Habit :=
  mkHabit (id h)
    (pick (up_name u) (name h))
    (pick (up_description u) (description h))
    (pick (up_status u) (status h))
    (pick (up_streak_days u) (streak_days h))
    (pick (up_last_completed_at u) (last_completed_at h)).

Definition HabitRepository_update (k : Z) (u : Updates) : M (option Habit) :=
  let* r := get_repo in
  match lookup k (habits r) with
  | None => ret None
  | Some cur =>
      let h := merge cur u in
      if negb (habit_valid h) then raise ValidationError else
      let* _ := put_repo (mkRepo (assign k h (habits r)) (next_id r)) in
      let* _ := record (WriteUpdate k) in
      ret (Some h)
  end.

Definition HabitRepository_delete (k : Z) : M bool :=
  let* r := get_repo in
  match lookup k (habits r) with
  | None => ret false
  | Some _ =>
      let* _ := put_repo (mkRepo (remove_key k (habits r)) (next_id r)) in
      let* _ := record (WriteDelete k) in
      ret true
  end.

(** ** Service ([services/habit_service.py]) *)

Definition positive_id_error (habit_id : Z) : Error :=
  InvalidHabitData "habit_id" (VInt habit_id) "Habit ID must be a positive integer".

Definition create_habit (request : CreateHabitRequest) : M Habit :=
  HabitRepository_create
    (mkHabitData (cr_name request) (cr_description request) Pending 0 None).

Definition get_habits (st : option Status) : M (list Habit) :=
  let* hs := HabitRepository_get_all in
  match st with
  | None => ret hs
  | Some s => ret (filter (fun h => Status_eqb (status h) s) hs)
  end.

Definition get_habit_by_id (habit_id : Z) : M Habit :=
  if habit_id <=? 0 then raise (positive_id_error habit_id) else
  let* o := HabitRepository_get_by_id habit_id in
  match o with
  | None => raise (HabitNotFound habit_id)
  | Some h => ret h
  end.

Definition opt_is_none {A} (o : option A) : bool :=
  match o with None => true | Some _ => false end.

(** [updates]: only the non-None fields of the request. *)
Definition request_updates (request : UpdateHabitRequest) : Updates :=
  mkUpdates (ur_name request)
            (match ur_description request with
             | None => None | Some d => Some (Some d) end)
            (ur_status request) None None.

Definition update_habit (habit_id : Z) (request : UpdateHabitRequest) : M Habit :=
  if habit_id <=? 0 then raise (positive_id_error habit_id) else
  (* Check if habit exists *)
  let* _ := get_habit_by_id habit_id in
  (* Validate that at least one field is being updated *)
  if opt_is_none (ur_name request) && opt_is_none (ur_description request)
     && opt_is_none (ur_status request)
  then raise (InvalidHabitData "update_request" (VText "empty")
                "At least one field must be provided for update")
  else
  let updates := request_updates request in
  let* o := HabitRepository_update habit_id updates in
  match o with
  | None => raise (HabitNotFound habit_id)
  | Some h => ret h
  end.

Definition delete_habit (habit_id : Z) : M unit :=
  if habit_id <=? 0 then raise (positive_id_error habit_id) else
  let* b := HabitRepository_delete habit_id in
  if negb b then raise (HabitNotFound habit_id) else ret tt.

Definition _calculate_new_streak (habit : Habit) (completion_date : Z) : Z :=
  match last_completed_at habit with
  | None => 1
  | Some last =>
      let days_diff := completion_date - last in
      if days_diff =? 1 then streak_days habit + 1 else 1
  end.

(** [today] is the value of [date.today()] during the call. *)
Definition complete_habit_today (today : Z) (habit_id : Z)
    (completion_date : option Z) : M Habit :=
  if habit_id <=? 0 then raise (positive_id_error habit_id) else
  let completion_date := pick completion_date today in
  (* [isinstance(completion_date, date)] holds by typing *)
  if today <? completion_date then
    raise (InvalidHabitData "completion_date" (VDate completion_date)
             "Cannot complete habits for future dates")
  else
  let* habit := get_habit_by_id habit_id in
  if match last_completed_at habit with
     | Some d => d =? completion_date | None => false end
  then raise (DuplicateCompletion (name habit) completion_date)
  else
  let new_streak_days := _calculate_new_streak habit completion_date in
  let updates := mkUpdates None None (Some Completed) (Some new_streak_days)
                           (Some (Some completion_date)) in
  let* o := HabitRepository_update habit_id updates in
  match o with
  | None => raise (HabitNotFound habit_id)
  | Some h => ret h
  end.

(** [sum(1 for habit in habits if p(habit))] *)
Fixpoint sum_ones (p : Habit -> bool) (hs : list Habit) : Z :=
  match hs with
  | [] => 0
  | h :: hs' => (if p h then 1 else 0) + sum_ones p hs'
  end.

Definition opt_date_eqb (o : option Z) (d : Z) : bool :=
  match o with Some x => x =? d | None => false end.

Definition get_stats (today : Z) : M StatsResponse :=
  let* hs := HabitRepository_get_all in
  let total := Z.of_nat (List.length hs) in
  let completed := sum_ones (fun h => opt_date_eqb (last_completed_at h) today) hs in
  let streaks := sum_ones (fun h => 3 <=? streak_days h) hs in
  ret (mkStatsResponse total completed streaks).

(** ** Traces of service operations *)

Inductive Op :=
| OpCreate (r : CreateHabitRequest)
| OpList (s : option Status)
| OpGet (k : Z)
| OpUpdate (k : Z) (r : UpdateHabitRequest)
| OpDelete (k : Z)
| OpComplete (k : Z) (d : option Z)
| OpStats.

(** One call, at the clock value [today]; the result is dropped, except the
    identifier a successful [create_habit] returns. *)
Definition run_op (today : Z) (o : Op) : M (option Z) :=
  fun s =>
    match o with
    | OpCreate r =>
        match create_habit r s with
        | (inr h, s') => (inr (Some (id h)), s')
        | (inl e, s') => (inr None, s')
        end
    | OpList f => (inr None, snd (get_habits f s))
    | OpGet k => (inr None, snd (get_habit_by_id k s))
    | OpUpdate k r => (inr None, snd (update_habit k r s))
    | OpDelete k => (inr None, snd (delete_habit k s))
    | OpComplete k d => (inr None, snd (complete_habit_today today k d s))
    | OpStats => (inr None, snd (get_stats today s))
    end.

Definition Trace := list (Z * Op).

(** Runs a trace; returns the identifiers assigned by the successful
    creations, in order, and the final state. *)
Fixpoint run_trace (tr : Trace) (s : St) : list Z * St :=
  match tr with
  | [] => ([], s)
  | (t, o) :: tr' =>
      match run_op t o s with
      | (inr (Some k), s') => let '(ks, s'') := run_trace tr' s' in (k :: ks, s'')
      | (_, s') => run_trace tr' s'
      end
  end.

Definition reach (tr : Trace) : St := snd (run_trace tr init_st).

(** ** Specification-side helpers *)

(** [[start; start+1; ...]], [n] elements. *)
Fixpoint zseq (start : Z) (n : nat) : list Z :=
  match n with
  | O => []
  | S n' => start :: zseq (start + 1) n'
  end.

(** The data-model invariant of §3 of the spec. *)
Definition streak_inv (h : Habit) : Prop :=
  (streak_days h = 0 <-> last_completed_at h = None) /\
  (last_completed_at h <> None -> 1 <= streak_days h).

(** Well-formed store: positive keys below [next_id], each record stored under
    its own [id], valid for the [Habit] model and satisfying [streak_inv]. *)
Definition store_wf (r : Repo) : Prop :=
  1 <= next_id r /\ NoDup (map fst (habits r)) /\
  Forall (fun p => 0 < fst p < next_id r /\ id (snd p) = fst p /\
                   habit_valid (snd p) = true /\ streak_inv (snd p))
         (habits r).

(** Every completion date stored is at most [t]. *)
Definition dated_by (t : Z) (r : Repo) : Prop :=
  Forall (fun p => forall d, last_completed_at (snd p) = Some d -> d <= t) (habits r).

(** How one service call may change the store, when run at clock [t]. *)
Inductive repo_change (t : Z) (r : Repo) : Repo -> Prop :=
| rc_same : repo_change t r r
| rc_create (h : Habit) :
    id h = next_id r -> habit_valid h = true ->
    streak_days h = 0 -> last_completed_at h = None ->
    repo_change t r (mkRepo (assign (next_id r) h (habits r)) (next_id r + 1))
| rc_update (k : Z) (cur : Habit) (u : Updates) :
    lookup k (habits r) = Some cur ->
    habit_valid (merge cur u) = true ->
    (up_streak_days u = None /\ up_last_completed_at u = None) \/
    (exists d, d <= t /\ up_last_completed_at u = Some (Some d) /\
               up_streak_days u = Some (_calculate_new_streak cur d)) ->
    repo_change t r (mkRepo (assign k (merge cur u) (habits r)) (next_id r))
| rc_delete (k : Z) :
    repo_change t r (mkRepo (remove_key k (habits r)) (next_id r)).

(** Accesses that do not write. *)
Definition reads_only (calls : list Access) : Prop :=
  forallb (fun a => negb (is_write a)) calls = true.

(** [HabitRepository.clear]: empty the dict and reset [_next_id] to 1 (a
    test utility, never called by the service; it goes through no store
    access the service log records). *)
Definition HabitRepository_clear : M unit := put_repo (mkRepo [] 1).

(** [UpdateHabitRequest(name=..., description=..., status=...)]: pydantic
    validates the supplied fields when the request is built. *)
Definition UpdateHabitRequest_new (n : option text) (d : option text)
    (st : option Status) : ValidationErrorOr UpdateHabitRequest :=
  let r := mkUpdateHabitRequest n d st in
  if update_request_valid r then inr r else inl tt.

(** ** The HTTP layer ([main.py]) *)

(** The exception handlers: [HabitNotFoundError] 404,
    [DuplicateCompletionError] 409, [InvalidHabitDataError] 400; any other
    exception raised in a route (here a pydantic [ValidationError] from the
    [Habit] model) is caught by [except Exception] and becomes 500. *)
Definition http_status (e : Error) : Z :=
  match e with
  | HabitNotFound _ => 404
  | DuplicateCompletion _ _ => 409
  | InvalidHabitData _ _ _ => 400
  | ValidationError => 500
  end.

(** A route body: the success status, or the status of the exception. *)
Definition respond {A} (ok : Z) (m : M A) : St -> Z * St :=
  fun s => match m s with
           | (inr _, s') => (ok, s')
           | (inl e, s') => (http_status e, s')
           end.

(** [POST /habits]: the body is validated into a [CreateHabitRequest] first
    (422 on failure), then [create_habit]; 201 on success. *)
Definition post_habits (n : text) (d : option text) (s : St) : Z * St :=
  match CreateHabitRequest_new n d with
  | inl _ => (422, s)
  | inr r => respond 201 (create_habit r) s
  end.

(** [PATCH /habits/{habit_id}] *)
Definition patch_habit (habit_id : Z) (n : option text) (d : option text)
    (st : option Status) (s : St) : Z * St :=
  match UpdateHabitRequest_new n d st with
  | inl _ => (422, s)
  | inr r => respond 200 (update_habit habit_id r) s
  end.

(** [DELETE /habits/{habit_id}]: 204 on success. *)
Definition delete_route (habit_id : Z) : St -> Z * St :=
  respond 204 (delete_habit habit_id).

(** [POST /habits/{habit_id}/complete]: [complete_habit_today(habit_id)],
    no date, so the date is [date.today()]. *)
Definition complete_route (today habit_id : Z) : St -> Z * St :=
  respond 200 (complete_habit_today today habit_id None).

(** [GET /stats] *)
Definition stats_route (today : Z) : St -> Z * St :=
  respond 200 (get_stats today).

(** ** The concrete scenario of §8 of the spec *)

(** [date(2024, 1, 15).toordinal()] *)
Definition jan15 : Z := 738900.

Definition exercise : CreateHabitRequest :=
  mkCreateHabitRequest (of_ascii "Exercise") None.

Definition exercise_habit : Habit :=
  mkHabit 1 (of_ascii "Exercise") None Pending 0 None.

(** A fresh store after [POST /habits {"name": "Exercise"}] on 2024-01-15. *)
Definition after_create : Trace := [(jan15, OpCreate exercise)].

(** The same, then completed on 2024-01-15. *)
Definition after_complete : Trace :=
  [(jan15, OpCreate exercise); (jan15, OpComplete 1 (Some jan15))].

(** The scenario of §8: complete on 01-15, again on 01-15 (duplicate), on
    01-16, on 01-20, then set [status] back to pending. *)
Definition scenario : Trace :=
  [(jan15, OpCreate exercise);
   (jan15, OpComplete 1 (Some jan15));
   (jan15 + 5, OpComplete 1 (Some jan15));
   (jan15 + 5, OpComplete 1 (Some (jan15 + 1)));
   (jan15 + 5, OpComplete 1 (Some (jan15 + 5)));
   (jan15 + 5, OpUpdate 1 (mkUpdateHabitRequest None None (Some Pending)))].

(** Three creations with a deletion in between. *)
Definition create_delete_create : Trace :=
  [(jan15, OpCreate exercise); (jan15, OpCreate exercise); (jan15, OpDelete 2);
   (jan15, OpCreate exercise)].

(** * Proofs *)

(** ** Runs of the concrete scenarios *)

Example scenario_run :
  habits (repo (reach scenario)) =
    [(1, mkHabit 1 (of_ascii "Exercise") None Pending 1 (Some (jan15 + 5)))].
Proof. vm_compute. reflexivity. Qed.

Example create_delete_create_ids : fst (run_trace create_delete_create init_st) = [1; 2; 3].
Proof. vm_compute. reflexivity. Qed.


(** ** Association lists *)

Lemma lookup_assign (k k' : Z) (v : Habit) (l : list (Z * Habit)) :
  lookup k (assign k' v l) = if k =? k' then Some v else lookup k l.
Proof.
  induction l as [|[k0 h] l IH]; simpl.
  - reflexivity.
  - destruct (k' =? k0) eqn:E1; simpl.
    + apply Z.eqb_eq in E1; subst k0. destruct (k =? k'); reflexivity.
    + rewrite IH. destruct (k =? k0) eqn:E2, (k =? k') eqn:E3; try reflexivity.
      apply Z.eqb_eq in E2, E3; subst. rewrite Z.eqb_refl in E1. discriminate.
Qed.

Lemma lookup_In (k : Z) (h : Habit) (l : list (Z * Habit)) :
  lookup k l = Some h -> In (k, h) l.
Proof.
  induction l as [|[k0 h0] l IH]; simpl; [discriminate|].
  destruct (k =? k0) eqn:E.
  - intros H; injection H as <-; apply Z.eqb_eq in E; subst; now left.
  - intros H; right; auto.
Qed.

Lemma In_assign (k : Z) (v : Habit) (l : list (Z * Habit)) (p : Z * Habit) :
  In p (assign k v l) -> p = (k, v) \/ In p l.
Proof.
  induction l as [|[k0 h0] l IH]; simpl.
  - intros [H|[]]; auto.
  - destruct (k =? k0) eqn:E; simpl.
    + apply Z.eqb_eq in E; subst. intros [H|H]; auto.
    + intros [H|H]; auto. destruct (IH H); auto.
Qed.

Lemma keys_assign_in (k : Z) (v : Habit) (l : list (Z * Habit)) :
  In k (map fst l) -> map fst (assign k v l) = map fst l.
Proof.
  induction l as [|[k0 h0] l IH]; simpl; [intros []|].
  destruct (k =? k0) eqn:E; simpl.
  - reflexivity.
  - intros [H|H].
    + subst. rewrite Z.eqb_refl in E. discriminate.
    + now rewrite IH.
Qed.

Lemma keys_assign_new (k : Z) (v : Habit) (l : list (Z * Habit)) :
  ~ In k (map fst l) -> map fst (assign k v l) = map fst l ++ [k].
Proof.
  induction l as [|[k0 h0] l IH]; simpl; [reflexivity|].
  intros Hn. destruct (k =? k0) eqn:E.
  - apply Z.eqb_eq in E. exfalso; auto.
  - simpl. rewrite IH; auto.
Qed.

Lemma In_remove_key (k : Z) (l : list (Z * Habit)) (p : Z * Habit) :
  In p (remove_key k l) -> In p l.
Proof.
  induction l as [|[k0 h0] l IH]; simpl; [auto|].
  destruct (k =? k0); simpl; intros; intuition.
Qed.

Lemma NoDup_remove_key (k : Z) (l : list (Z * Habit)) :
  NoDup (map fst l) -> NoDup (map fst (remove_key k l)).
Proof.
  induction l as [|[k0 h0] l IH]; simpl; [auto|].
  intros Hnd; inversion Hnd as [|x xs Hnin Hnd']; subst.
  destruct (k =? k0); simpl; [assumption|].
  constructor; auto.
  intros Hin. apply in_map_iff in Hin as [[k1 h1] [Heq Hin]]; simpl in Heq; subst.
  apply In_remove_key in Hin. apply Hnin. now apply (in_map fst) in Hin.
Qed.

(** ** The repository operations, one by one *)

Ltac unfold_monad :=
  unfold bind, ret, raise, get_repo, put_repo, record in *; simpl in *.

Lemma create_spec (d : HabitData) (s s' : St) (res : Error + Habit) :
  HabitRepository_create d s = (res, s') ->
  (res = inl ValidationError /\ s' = s) \/
  (let h := mkHabit (next_id (repo s)) (hd_name d) (hd_description d)
                    (hd_status d) (hd_streak_days d) (hd_last_completed_at d) in
   habit_valid h = true /\ res = inr h /\
   s' = mkSt (mkRepo (assign (next_id (repo s)) h (habits (repo s)))
                     (next_id (repo s) + 1))
             (log s ++ [WriteCreate (next_id (repo s))])).
Proof.
  unfold HabitRepository_create; unfold_monad.
  destruct (habit_valid _) eqn:V; simpl; intros H; injection H as <- <-.
  - right. auto.
  - left. auto.
Qed.

Lemma get_by_id_spec (k : Z) (s : St) :
  HabitRepository_get_by_id k s =
  (inr (lookup k (habits (repo s))), mkSt (repo s) (log s ++ [ReadOne k])).
Proof. reflexivity. Qed.

Lemma get_all_spec (s : St) :
  HabitRepository_get_all s =
  (inr (map snd (habits (repo s))), mkSt (repo s) (log s ++ [ReadAll])).
Proof. reflexivity. Qed.

Lemma update_spec (k : Z) (u : Updates) (s s' : St) (res : Error + option Habit) :
  HabitRepository_update k u s = (res, s') ->
  (s' = s /\ (res = inr None /\ lookup k (habits (repo s)) = None \/
              res = inl ValidationError)) \/
  (exists cur, lookup k (habits (repo s)) = Some cur /\
     habit_valid (merge cur u) = true /\ res = inr (Some (merge cur u)) /\
     s' = mkSt (mkRepo (assign k (merge cur u) (habits (repo s))) (next_id (repo s)))
               (log s ++ [WriteUpdate k])).
Proof.
  unfold HabitRepository_update; unfold_monad.
  destruct (lookup k (habits (repo s))) as [cur|] eqn:L.
  - destruct (habit_valid (merge cur u)) eqn:V; simpl; intros H; injection H as <- <-.
    + right. exists cur. auto.
    + left. auto.
  - intros H; injection H as <- <-. left. auto.
Qed.

Lemma delete_spec (k : Z) (s s' : St) (res : Error + bool) :
  HabitRepository_delete k s = (res, s') ->
  (s' = s /\ res = inr false /\ lookup k (habits (repo s)) = None) \/
  (res = inr true /\ lookup k (habits (repo s)) <> None /\
   s' = mkSt (mkRepo (remove_key k (habits (repo s))) (next_id (repo s)))
             (log s ++ [WriteDelete k])).
Proof.
  unfold HabitRepository_delete; unfold_monad.
  destruct (lookup k (habits (repo s))) as [cur|] eqn:L;
    intros H; injection H as <- <-.
  - right. split; [reflexivity|]. split; [discriminate|reflexivity].
  - left. auto.
Qed.

(** ** The service operations *)

Lemma get_habit_by_id_eq (k : Z) (s : St) :
  get_habit_by_id k s =
  if k <=? 0 then (inl (positive_id_error k), s) else
  match lookup k (habits (repo s)) with
  | None => (inl (HabitNotFound k), mkSt (repo s) (log s ++ [ReadOne k]))
  | Some h => (inr h, mkSt (repo s) (log s ++ [ReadOne k]))
  end.
Proof.
  unfold get_habit_by_id. destruct (k <=? 0); [reflexivity|].
  unfold_monad. destruct (lookup k (habits (repo s))); reflexivity.
Qed.

(** Case analysis on the scrutinees of a goal, reusing the equations already
    in the context. *)
Ltac case_step :=
  match goal with
  | H : ?x = ?v |- context [match ?x with _ => _ end] => rewrite H
  | |- context [match ?x with _ => _ end] =>
      let E := fresh "E" in destruct x eqn:E
  end.

Ltac run_service :=
  repeat (simpl in *; first [ rewrite get_habit_by_id_eq | case_step ]).

Definition completion_updates (h : Habit) (d : Z) : Updates :=
  mkUpdates None None (Some Completed) (Some (_calculate_new_streak h d))
            (Some (Some d)).

Lemma complete_habit_today_eq (today k : Z) (d : option Z) (s : St) :
  complete_habit_today today k d s =
  if k <=? 0 then (inl (positive_id_error k), s) else
  if today <? pick d today then
    (inl (InvalidHabitData "completion_date" (VDate (pick d today))
            "Cannot complete habits for future dates"), s) else
  match lookup k (habits (repo s)) with
  | None => (inl (HabitNotFound k), mkSt (repo s) (log s ++ [ReadOne k]))
  | Some h =>
      if opt_date_eqb (last_completed_at h) (pick d today) then
        (inl (DuplicateCompletion (name h) (pick d today)),
         mkSt (repo s) (log s ++ [ReadOne k]))
      else
        let h' := merge h (completion_updates h (pick d today)) in
        if habit_valid h' then
          (inr h', mkSt (mkRepo (assign k h' (habits (repo s))) (next_id (repo s)))
                        (log s ++ [ReadOne k; WriteUpdate k]))
        else (inl ValidationError, mkSt (repo s) (log s ++ [ReadOne k]))
  end.
Proof.
  unfold complete_habit_today.
  destruct (k <=? 0) eqn:Ek; [reflexivity|].
  destruct (today <? pick d today); [reflexivity|].
  unfold bind at 1. rewrite get_habit_by_id_eq, Ek.
  destruct (lookup k (habits (repo s))) as [h|] eqn:L; [|reflexivity].
  unfold opt_date_eqb.
  destruct (match last_completed_at h with
            | Some x => x =? pick d today | None => false end); [reflexivity|].
  unfold HabitRepository_update; unfold_monad. rewrite L.
  destruct (habit_valid _); simpl; [|reflexivity].
  rewrite <- app_assoc. reflexivity.
Qed.

Lemma update_habit_eq (k : Z) (r : UpdateHabitRequest) (s : St) :
  update_habit k r s =
  if k <=? 0 then (inl (positive_id_error k), s) else
  match lookup k (habits (repo s)) with
  | None => (inl (HabitNotFound k), mkSt (repo s) (log s ++ [ReadOne k]))
  | Some h =>
      if opt_is_none (ur_name r) && opt_is_none (ur_description r)
         && opt_is_none (ur_status r)
      then (inl (InvalidHabitData "update_request" (VText "empty")
                   "At least one field must be provided for update"),
            mkSt (repo s) (log s ++ [ReadOne k]))
      else
        let h' := merge h (request_updates r) in
        if habit_valid h' then
          (inr h', mkSt (mkRepo (assign k h' (habits (repo s))) (next_id (repo s)))
                        (log s ++ [ReadOne k; WriteUpdate k]))
        else (inl ValidationError, mkSt (repo s) (log s ++ [ReadOne k]))
  end.
Proof.
  unfold update_habit.
  destruct (k <=? 0) eqn:Ek; [reflexivity|].
  unfold bind at 1. rewrite get_habit_by_id_eq, Ek.
  destruct (lookup k (habits (repo s))) as [h|] eqn:L; [|reflexivity].
  destruct (_ && _ && _); [reflexivity|].
  unfold HabitRepository_update; unfold_monad. rewrite L.
  destruct (habit_valid _); simpl; [|reflexivity].
  rewrite <- app_assoc. reflexivity.
Qed.

Lemma delete_habit_eq (k : Z) (s : St) :
  delete_habit k s =
  if k <=? 0 then (inl (positive_id_error k), s) else
  match lookup k (habits (repo s)) with
  | None => (inl (HabitNotFound k), s)
  | Some _ => (inr tt, mkSt (mkRepo (remove_key k (habits (repo s))) (next_id (repo s)))
                            (log s ++ [WriteDelete k]))
  end.
Proof.
  unfold delete_habit. destruct (k <=? 0); [reflexivity|].
  unfold HabitRepository_delete; unfold_monad.
  destruct (lookup k (habits (repo s))); reflexivity.
Qed.

Lemma get_stats_eq (today : Z) (s : St) :
  get_stats today s =
  (inr (mkStatsResponse
          (Z.of_nat (List.length (map snd (habits (repo s)))))
          (sum_ones (fun h => opt_date_eqb (last_completed_at h) today)
                    (map snd (habits (repo s))))
          (sum_ones (fun h => 3 <=? streak_days h) (map snd (habits (repo s))))),
   mkSt (repo s) (log s ++ [ReadAll])).
Proof. reflexivity. Qed.

Lemma get_habits_repo (f : option Status) (s : St) :
  repo (snd (get_habits f s)) = repo s.
Proof. unfold get_habits; unfold_monad. destruct f; reflexivity. Qed.

Lemma get_habit_by_id_repo (k : Z) (s : St) :
  repo (snd (get_habit_by_id k s)) = repo s.
Proof.
  rewrite get_habit_by_id_eq. destruct (k <=? 0); [reflexivity|].
  destruct (lookup _ _); reflexivity.
Qed.

Ltac case_valid V :=
  lazymatch goal with
  | |- context [if habit_valid ?x then _ else _] => destruct (habit_valid x) eqn:V
  end.

(** ** Every call changes the store in one of the [repo_change] ways *)

Lemma run_op_change (t : Z) (o : Op) (s : St) :
  repo_change t (repo s) (repo (snd (run_op t o s))).
Proof.
  destruct o as [r|f|k|k r|k|k d|]; simpl.
  - destruct (create_habit r s) as [res s'] eqn:E.
    apply create_spec in E as [[-> ->]|(V & -> & ->)]; simpl; [constructor|].
    apply rc_create; auto.
  - rewrite get_habits_repo. constructor.
  - rewrite get_habit_by_id_repo. constructor.
  - rewrite update_habit_eq.
    destruct (k <=? 0); [constructor|].
    destruct (lookup k (habits (repo s))) as [h|] eqn:L; [|constructor].
    destruct (_ && _ && _); [constructor|].
    cbv zeta; case_valid V; [|constructor].
    apply (rc_update t (repo s) k h); auto.
  - rewrite delete_habit_eq.
    destruct (k <=? 0); [constructor|].
    destruct (lookup k (habits (repo s))); constructor.
  - rewrite complete_habit_today_eq.
    destruct (k <=? 0); [constructor|].
    destruct (t <? pick d t) eqn:Ft; [constructor|].
    destruct (lookup k (habits (repo s))) as [h|] eqn:L; [|constructor].
    destruct (opt_date_eqb _ _); [constructor|].
    cbv zeta; case_valid V; [|constructor].
    apply (rc_update t (repo s) k h); auto.
    right. exists (pick d t). apply Z.ltb_ge in Ft. auto.
  - constructor.
Qed.

(** ** Invariants of the store *)

Lemma calculate_new_streak_pos (h : Habit) (d : Z) :
  0 <= streak_days h -> 1 <= _calculate_new_streak h d.
Proof.
  unfold _calculate_new_streak. destruct (last_completed_at h); [|lia].
  destruct (d - z =? 1); lia.
Qed.

Lemma habit_valid_streak (h : Habit) : habit_valid h = true -> 0 <= streak_days h.
Proof.
  unfold habit_valid. intros H. apply andb_prop in H as [_ H]. now apply Z.leb_le.
Qed.

Lemma repo_change_wf (t : Z) (r r' : Repo) :
  repo_change t r r' -> store_wf r -> store_wf r'.
Proof.
  intros Hc (Hn & Hnd & Hall). rewrite Forall_forall in Hall.
  destruct Hc as [|h Hid Hv Hs Hl|k cur u Hlk Hv Hu|k]; unfold store_wf; simpl.
  - split; [|split]; auto. now apply Forall_forall.
  - assert (Hnin : ~ In (next_id r) (map fst (habits r))).
    { intros Hin. apply in_map_iff in Hin as [p [Hp Hin]].
      specialize (Hall p Hin). lia. }
    split; [lia|split].
    + rewrite keys_assign_new by assumption.
      apply NoDup_app; auto using NoDup_cons, NoDup_nil.
      intros a Ha [Ha'|[]]; subst; auto.
    + apply Forall_forall. intros p Hin. apply In_assign in Hin as [->|Hin]; simpl.
      * split; [lia|]. split; [assumption|]. split; [assumption|].
        unfold streak_inv. rewrite Hs, Hl. split; [tauto|intros []; reflexivity].
      * destruct (Hall p Hin) as (Hk & Hrest). split; [lia|exact Hrest].
  - pose proof (lookup_In _ _ _ Hlk) as Hin.
    pose proof (Hall _ Hin) as (Hk & Hid & Hcv & Hinv); simpl in *.
    split; [lia|split].
    + rewrite keys_assign_in; auto. now apply (in_map fst) in Hin.
    + apply Forall_forall. intros p Hp. apply In_assign in Hp as [->|Hp]; [|auto].
      simpl. split; [lia|]. split; [assumption|]. split; [exact Hv|].
      destruct Hu as [[Hs Hl]|(d & _ & Hl & Hs)]; unfold streak_inv, merge;
        simpl; rewrite Hs, Hl; simpl; [exact Hinv|].
      pose proof (calculate_new_streak_pos cur d (habit_valid_streak _ Hcv)).
      split; [split; [intros; exfalso; lia|discriminate]|intros; lia].
  - split; [lia|split].
    + now apply NoDup_remove_key.
    + apply Forall_forall. intros p Hp. apply In_remove_key in Hp. auto.
Qed.

Lemma repo_change_dated (t t' : Z) (r r' : Repo) :
  repo_change t r r' -> t <= t' -> dated_by t' r -> dated_by t' r'.
Proof.
  unfold dated_by. intros Hc Ht Hall. rewrite Forall_forall in *.
  destruct Hc as [|h Hid Hv Hs Hl|k cur u Hlk Hv Hu|k]; simpl.
  - assumption.
  - intros p Hp. apply In_assign in Hp as [->|Hp]; [|exact (Hall _ Hp)].
    simpl. rewrite Hl. discriminate.
  - intros p Hp. apply In_assign in Hp as [->|Hp]; [|exact (Hall _ Hp)].
    simpl. pose proof (Hall _ (lookup_In _ _ _ Hlk)) as Hcur; simpl in Hcur.
    destruct Hu as [[_ Hl]|(d & Hd & Hl & _)]; rewrite Hl; simpl.
    + assumption.
    + intros d' Hd'. injection Hd' as <-. lia.
  - intros p Hp. apply In_remove_key in Hp. exact (Hall _ Hp).
Qed.

Lemma run_trace_cons (t : Z) (o : Op) (tr : Trace) (s : St) :
  snd (run_trace ((t, o) :: tr) s) = snd (run_trace tr (snd (run_op t o s))).
Proof.
  simpl. destruct (run_op t o s) as [[e|[k|]] s'] eqn:E; simpl; try reflexivity.
  destruct (run_trace tr s'); reflexivity.
Qed.

Lemma run_trace_wf (tr : Trace) (s : St) :
  store_wf (repo s) -> store_wf (repo (snd (run_trace tr s))).
Proof.
  revert s. induction tr as [|[t o] tr IH]; intros s Hs; [assumption|].
  rewrite run_trace_cons. apply IH. eapply repo_change_wf; [apply run_op_change|assumption].
Qed.

Lemma run_trace_dated (today : Z) (tr : Trace) (s : St) :
  Forall (fun p => fst p <= today) tr ->
  dated_by today (repo s) -> dated_by today (repo (snd (run_trace tr s))).
Proof.
  revert s. induction tr as [|[t o] tr IH]; intros s Htr Hs; [assumption|].
  inversion Htr as [|x xs Ht Htr']; subst; simpl in Ht.
  rewrite run_trace_cons. apply IH; [assumption|].
  eapply repo_change_dated; [apply run_op_change|exact Ht|assumption].
Qed.

Lemma init_wf : store_wf (repo init_st).
Proof. repeat split; simpl; auto using NoDup_nil; lia. Qed.

Lemma init_dated (t : Z) : dated_by t (repo init_st).
Proof. constructor. Qed.

Lemma reach_wf (tr : Trace) : store_wf (repo (reach tr)).
Proof. apply run_trace_wf, init_wf. Qed.

Lemma wf_lookup (r : Repo) (k : Z) (h : Habit) :
  store_wf r -> lookup k (habits r) = Some h ->
  0 < k < next_id r /\ id h = k /\ habit_valid h = true /\ streak_inv h.
Proof.
  intros (_ & _ & Hall) Hl. rewrite Forall_forall in Hall.
  exact (Hall _ (lookup_In _ _ _ Hl)).
Qed.

Lemma dated_lookup (t : Z) (r : Repo) (k : Z) (h : Habit) (d : Z) :
  dated_by t r -> lookup k (habits r) = Some h -> last_completed_at h = Some d -> d <= t.
Proof.
  unfold dated_by. rewrite Forall_forall. intros Hall Hl Hd.
  exact (Hall _ (lookup_In _ _ _ Hl) d Hd).
Qed.

Lemma opt_date_eqb_false (o : option Z) (d : Z) :
  o <> Some d -> opt_date_eqb o d = false.
Proof.
  destruct o as [x|]; simpl; [|reflexivity]. intros H.
  apply Z.eqb_neq. intros ->. apply H. reflexivity.
Qed.

(** ** C1: a valid completion succeeds with the streak rule *)

(** Claim C1. For a habit [h] stored under [k] and a completion date [D] with
    [D <= today] and [D] different from [h]'s [last_completed_at],
    [complete_habit_today] succeeds after one read and exactly one store
    write, which stores [status = completed], [last_completed_at = D] and a
    streak of 1 when [h] was never completed, of the old streak plus one when
    [D] is exactly one day after the last completion, and of 1 for every other
    gap (also when [D] is before the last completion). *)
Theorem complete_habit_streak (s : St) (today k D : Z) (h : Habit) :
  store_wf (repo s) ->
  lookup k (habits (repo s)) = Some h ->
  D <= today ->
  last_completed_at h <> Some D ->
  exists h',
    complete_habit_today today k (Some D) s =
      (inr h', mkSt (mkRepo (assign k h' (habits (repo s))) (next_id (repo s)))
                    (log s ++ [ReadOne k; WriteUpdate k])) /\
    status h' = Completed /\ last_completed_at h' = Some D /\
    id h' = id h /\ name h' = name h /\ description h' = description h /\
    (last_completed_at h = None -> streak_days h' = 1) /\
    (forall L, last_completed_at h = Some L -> D - L = 1 ->
               streak_days h' = streak_days h + 1) /\
    (forall L, last_completed_at h = Some L -> D - L <> 1 -> streak_days h' = 1).
Proof.
  intros Hwf Hl HD Hne.
  destruct (wf_lookup _ _ _ Hwf Hl) as (Hk & _ & Hv & _).
  rewrite complete_habit_today_eq. simpl.
  replace (k <=? 0) with false by (symmetry; apply Z.leb_gt; lia).
  replace (today <? D) with false by (symmetry; apply Z.ltb_ge; lia).
  rewrite Hl, opt_date_eqb_false by assumption. cbv zeta.
  assert (Hv' : habit_valid (merge h (completion_updates h D)) = true).
  { revert Hv. unfold habit_valid, merge, completion_updates; simpl.
    intros Hv. apply andb_prop in Hv as [Hnd Hs]. rewrite Hnd. simpl.
    apply Z.leb_le. apply Z.leb_le in Hs.
    pose proof (calculate_new_streak_pos h D Hs). lia. }
  rewrite Hv'. eexists. split; [reflexivity|].
  unfold merge, completion_updates, _calculate_new_streak; simpl.
  repeat split; try reflexivity.
  - intros ->. reflexivity.
  - intros L -> Hd. rewrite (proj2 (Z.eqb_eq _ _) Hd). reflexivity.
  - intros L -> Hd. rewrite (proj2 (Z.eqb_neq _ _) Hd). reflexivity.
Qed.

Lemma complete_habit_streak_witness :
  exists h', fst (complete_habit_today jan15 1 (Some jan15) (reach after_create)) = inr h'
             /\ status h' = Completed /\ streak_days h' = 1.
Proof.
  destruct (complete_habit_streak (reach after_create) jan15 1 jan15 exercise_habit)
    as (h' & E & Hst & _ & _ & _ & _ & H1 & _);
    [apply reach_wf | vm_compute; reflexivity | lia | vm_compute; discriminate|].
  exists h'. rewrite E. split; [reflexivity|]. split; [exact Hst|]. apply H1. reflexivity.
Defined.

(** ** C2: duplicate completions, and no write on any failure *)

Ltac no_write_leaf :=
  let H := fresh in
  intros H; injection H as _ <-; simpl; split; [reflexivity|];
  first [ exists []; rewrite app_nil_r; split; reflexivity
        | eexists; split; reflexivity ].

Lemma complete_failure_no_write (today k : Z) (d : option Z) (s s' : St) (e : Error) :
  complete_habit_today today k d s = (inl e, s') ->
  repo s' = repo s /\ exists calls, log s' = log s ++ calls /\ reads_only calls.
Proof.
  rewrite complete_habit_today_eq.
  destruct (k <=? 0); [no_write_leaf|].
  destruct (today <? pick d today); [no_write_leaf|].
  destruct (lookup k (habits (repo s))) as [h|]; [|no_write_leaf].
  destruct (opt_date_eqb _ _); [no_write_leaf|].
  cbv zeta. case_valid V; [discriminate|no_write_leaf].
Qed.

(** Claim C2. In any store reached by service calls made at clock values not
    after [today], completing a stored habit [h] whose [last_completed_at] is
    [D] again with the date [D] fails with [DuplicateCompletion] carrying [h]'s
    name and [D], leaves the store unchanged and performs only the read of the
    habit; and every failing call of [complete_habit_today], from any state,
    leaves the store unchanged and performs no write. *)
Theorem complete_habit_duplicate (tr : Trace) (today k D : Z) (h : Habit) :
  Forall (fun p => fst p <= today) tr ->
  lookup k (habits (repo (reach tr))) = Some h ->
  last_completed_at h = Some D ->
  complete_habit_today today k (Some D) (reach tr) =
    (inl (DuplicateCompletion (name h) D),
     mkSt (repo (reach tr)) (log (reach tr) ++ [ReadOne k])) /\
  (forall today' k' d s s' e,
     complete_habit_today today' k' d s = (inl e, s') ->
     repo s' = repo s /\ exists calls, log s' = log s ++ calls /\ reads_only calls).
Proof.
  intros Htr Hl Hd. split; [|exact complete_failure_no_write].
  destruct (wf_lookup _ _ _ (reach_wf tr) Hl) as (Hk & _).
  assert (HD : D <= today).
  { eapply dated_lookup; [|exact Hl|exact Hd].
    apply run_trace_dated; [exact Htr|apply init_dated]. }
  rewrite complete_habit_today_eq. simpl.
  replace (k <=? 0) with false by (symmetry; apply Z.leb_gt; lia).
  replace (today <? D) with false by (symmetry; apply Z.ltb_ge; lia).
  rewrite Hl, Hd. simpl. rewrite Z.eqb_refl. reflexivity.
Qed.

Lemma complete_habit_duplicate_witness :
  fst (complete_habit_today jan15 1 (Some jan15) (reach after_complete)) =
    inl (DuplicateCompletion (of_ascii "Exercise") jan15).
Proof.
  destruct (complete_habit_duplicate after_complete jan15 1 jan15
              (mkHabit 1 (of_ascii "Exercise") None Completed 1 (Some jan15)))
    as [E _]; [repeat constructor; simpl; lia | vm_compute; reflexivity
              | reflexivity |].
  rewrite E. reflexivity.
Defined.

(** ** C3: the streak invariant on every reachable state *)

(** Claim C3. In every store reached from the empty store by any sequence of
    service calls (at any clock values), every stored habit has
    [streak_days = 0] exactly when [last_completed_at] is [None], and
    [streak_days >= 1] whenever [last_completed_at] is a date. *)
Theorem reachable_streak_invariant (tr : Trace) (k : Z) (h : Habit) :
  In (k, h) (habits (repo (reach tr))) ->
  (streak_days h = 0 <-> last_completed_at h = None) /\
  (last_completed_at h <> None -> 1 <= streak_days h).
Proof.
  intros Hin. destruct (reach_wf tr) as (_ & _ & Hall).
  rewrite Forall_forall in Hall. apply (Hall _ Hin).
Qed.

Lemma reachable_streak_invariant_witness :
  In (1, mkHabit 1 (of_ascii "Exercise") None Completed 1 (Some jan15))
     (habits (repo (reach after_complete))) /\
  1 <= streak_days (mkHabit 1 (of_ascii "Exercise") None Completed 1 (Some jan15)).
Proof.
  assert (Hin : In (1, mkHabit 1 (of_ascii "Exercise") None Completed 1 (Some jan15))
                   (habits (repo (reach after_complete))))
    by (vm_compute; left; reflexivity).
  split; [exact Hin|].
  apply (proj2 (reachable_streak_invariant after_complete _ _ Hin)). discriminate.
Defined.

(** ** C4: [update_habit] changes only the supplied fields *)

(** Claim C4. For a habit [h] stored under [k] and a (pydantic-valid) update
    request with at least one non-null field, [update_habit] succeeds with one
    read and one write; the stored record takes the supplied [name],
    [description] and [status] and keeps [h]'s value for every unsupplied
    one, keeps [id], [streak_days] and [last_completed_at] unchanged, and no
    other record of the store changes. *)
Theorem update_habit_frame (s : St) (k : Z) (r : UpdateHabitRequest) (h : Habit) :
  store_wf (repo s) ->
  lookup k (habits (repo s)) = Some h ->
  update_request_valid r = true ->
  (ur_name r <> None \/ ur_description r <> None \/ ur_status r <> None) ->
  exists h',
    update_habit k r s =
      (inr h', mkSt (mkRepo (assign k h' (habits (repo s))) (next_id (repo s)))
                    (log s ++ [ReadOne k; WriteUpdate k])) /\
    name h' = pick (ur_name r) (name h) /\
    description h' = match ur_description r with
                     | Some d => Some d | None => description h end /\
    status h' = pick (ur_status r) (status h) /\
    id h' = id h /\ streak_days h' = streak_days h /\
    last_completed_at h' = last_completed_at h /\
    (forall k', k' <> k ->
       lookup k' (assign k h' (habits (repo s))) = lookup k' (habits (repo s))).
Proof.
  intros Hwf Hl Hr Hsome.
  destruct (wf_lookup _ _ _ Hwf Hl) as (Hk & _ & Hv & _).
  rewrite update_habit_eq.
  replace (k <=? 0) with false by (symmetry; apply Z.leb_gt; lia).
  rewrite Hl.
  replace (opt_is_none (ur_name r) && opt_is_none (ur_description r)
           && opt_is_none (ur_status r)) with false
    by (destruct (ur_name r), (ur_description r), (ur_status r); simpl; try reflexivity;
        exfalso; intuition congruence).
  cbv zeta.
  assert (Hv' : habit_valid (merge h (request_updates r)) = true).
  { revert Hv Hr. unfold habit_valid, update_request_valid, merge, request_updates.
    destruct (ur_name r), (ur_description r); simpl;
      rewrite !andb_true_iff; intuition. }
  rewrite Hv'. eexists. split; [reflexivity|].
  unfold merge, request_updates; simpl.
  repeat split; try reflexivity.
  - destruct (ur_description r); reflexivity.
  - intros k' Hk'. rewrite lookup_assign. apply Z.eqb_neq in Hk'. rewrite Hk'. reflexivity.
Qed.

Lemma update_habit_frame_witness :
  exists h', fst (update_habit 1 (mkUpdateHabitRequest None None (Some Pending))
                               (reach after_complete)) = inr h' /\
             status h' = Pending /\ streak_days h' = 1 /\ last_completed_at h' = Some jan15.
Proof.
  destruct (update_habit_frame (reach after_complete) 1
              (mkUpdateHabitRequest None None (Some Pending))
              (mkHabit 1 (of_ascii "Exercise") None Completed 1 (Some jan15)))
    as (h' & E & _ & _ & Hst & _ & Hs & Hlc & _);
    [apply reach_wf | vm_compute; reflexivity | reflexivity
    | right; right; discriminate |].
  exists h'. rewrite E. repeat split; assumption.
Defined.

(** ** C5: [get_stats] *)

Lemma sum_ones_filter (p : Habit -> bool) (hs : list Habit) :
  sum_ones p hs = Z.of_nat (List.length (filter p hs)).
Proof.
  induction hs as [|h hs IH]; simpl; [reflexivity|].
  rewrite IH. destruct (p h); cbn [filter List.length]; [rewrite Nat2Z.inj_succ|]; lia.
Qed.

(** Claim C5. [get_stats] performs exactly one read ([get_all]) and no write,
    leaves the store unchanged, and returns [total_habits] = the number of
    stored habits, [completed_today] = the number of stored habits whose
    [last_completed_at] is [today] (the clock at call time; the [status]
    field is not consulted) and [active_streaks_ge_3] = the number of stored
    habits with [streak_days >= 3]. *)
Theorem get_stats_counts (today : Z) (s : St) :
  get_stats today s =
    (inr (mkStatsResponse
            (Z.of_nat (List.length (habits (repo s))))
            (Z.of_nat (List.length
               (filter (fun h => match last_completed_at h with
                                 | Some d => d =? today | None => false end)
                       (map snd (habits (repo s))))))
            (Z.of_nat (List.length
               (filter (fun h => 3 <=? streak_days h) (map snd (habits (repo s))))))),
     mkSt (repo s) (log s ++ [ReadAll])).
Proof.
  rewrite get_stats_eq, !sum_ones_filter, length_map. reflexivity.
Qed.

(** ** C6: identifiers *)

Lemma run_op_ids (t : Z) (o : Op) (s : St) :
  match fst (run_op t o s) with
  | inr (Some k) => k = next_id (repo s) /\ next_id (repo (snd (run_op t o s))) = k + 1
  | _ => next_id (repo (snd (run_op t o s))) = next_id (repo s)
  end.
Proof.
  destruct o as [r|f|k|k r|k|k d|]; simpl.
  - destruct (create_habit r s) as [res s'] eqn:E.
    apply create_spec in E as [[-> ->]|(_ & -> & ->)]; simpl; auto.
  - now rewrite get_habits_repo.
  - now rewrite get_habit_by_id_repo.
  - rewrite update_habit_eq.
    destruct (k <=? 0); [reflexivity|].
    destruct (lookup k (habits (repo s))); [|reflexivity].
    destruct (_ && _ && _); [reflexivity|].
    cbv zeta. case_valid V; reflexivity.
  - rewrite delete_habit_eq.
    destruct (k <=? 0); [reflexivity|].
    destruct (lookup k (habits (repo s))); reflexivity.
  - rewrite complete_habit_today_eq.
    destruct (k <=? 0); [reflexivity|].
    destruct (t <? pick d t); [reflexivity|].
    destruct (lookup k (habits (repo s))); [|reflexivity].
    destruct (opt_date_eqb _ _); [reflexivity|].
    cbv zeta. case_valid V; reflexivity.
  - reflexivity.
Qed.

Lemma run_trace_ids (tr : Trace) (s : St) :
  fst (run_trace tr s) = zseq (next_id (repo s)) (List.length (fst (run_trace tr s))) /\
  next_id (repo (snd (run_trace tr s))) =
    next_id (repo s) + Z.of_nat (List.length (fst (run_trace tr s))).
Proof.
  revert s. induction tr as [|[t o] tr IH]; intros s; simpl; [split; [reflexivity|lia]|].
  pose proof (run_op_ids t o s) as Hop.
  destruct (run_op t o s) as [[e|[k|]] s'] eqn:E; simpl in Hop.
  - rewrite <- Hop. apply IH.
  - destruct Hop as [-> Hn].
    destruct (run_trace tr s') as [ks s''] eqn:Er. simpl.
    destruct (IH s') as [Hks Hn']. rewrite Er in Hks, Hn'; simpl in Hks, Hn'.
    rewrite Hn in Hks, Hn'. split.
    + f_equal. exact Hks.
    + lia.
  - rewrite <- Hop. apply IH.
Qed.

Lemma zseq_lower (a : Z) (n : nat) (x : Z) : In x (zseq a n) -> a <= x.
Proof.
  revert a. induction n as [|n IH]; simpl; intros a; [intros []|].
  intros [->|Hin]; [lia|]. specialize (IH _ Hin). lia.
Qed.

Lemma zseq_NoDup (a : Z) (n : nat) : NoDup (zseq a n).
Proof.
  revert a. induction n as [|n IH]; simpl; intros a; constructor; auto.
  intros Hin. apply zseq_lower in Hin. lia.
Qed.

Lemma zseq_sorted (a : Z) (n : nat) : Sorted Z.lt (zseq a n).
Proof.
  revert a. induction n as [|n IH]; simpl; intros a; constructor; auto.
  destruct n; simpl; constructor. lia.
Qed.

(** Claim C6. Along any sequence of service calls from the empty store, with
    deletions (and any other calls) interleaved, the identifiers returned by
    the successful creations are [1, 2, ..., N] in order, [N] being the
    number of those creations: they are distinct and strictly increasing, so
    none is ever handed out twice, also after its habit was deleted. *)
Theorem create_ids_sequential (tr : Trace) :
  let ids := fst (run_trace tr init_st) in
  ids = zseq 1 (List.length ids) /\ NoDup ids /\ Sorted Z.lt ids.
Proof.
  simpl. destruct (run_trace_ids tr init_st) as [H _]. simpl in H.
  split; [exact H|]. rewrite H. split; [apply zseq_NoDup|apply zseq_sorted].
Qed.

(** ** C7: validation of [create_habit] *)

(** Claim C7 as stated fails: an empty name reaching [create_habit] is
    rejected by the [Habit] model's validation ([ValidationError]), not with
    [InvalidHabitData]; the request model rejects it the same way first. *)
Lemma create_habit_empty_name_cex :
  CreateHabitRequest_new [] None = inl tt /\
  create_habit (mkCreateHabitRequest [] None) init_st = (inl ValidationError, init_st) /\
  ~ (exists f v c,
       fst (create_habit (mkCreateHabitRequest [] None) init_st) =
       inl (InvalidHabitData f v c)).
Proof.
  split; [reflexivity|]. split; [reflexivity|].
  intros (f & v & c & H). discriminate H.
Qed.

(** Claim C7, amended. Names outside 1..80 characters and descriptions over
    280 characters are rejected by pydantic's [ValidationError]: when the
    [CreateHabitRequest] is built and again by the [Habit] model inside the
    store, which then stores nothing and assigns no identifier;
    [create_habit] never fails with [InvalidHabitData]. A valid request
    creates, under the next identifier, the habit with the request's name and
    description, [status = pending], [streak_days = 0] and
    [last_completed_at = None], with one write. *)
Theorem create_habit_validation (r : CreateHabitRequest) (s : St) (n : text)
    (d : option text) :
  (CreateHabitRequest_new n d = inl tt <-> name_ok n && description_ok d = false) /\
  (create_request_valid r = false -> create_habit r s = (inl ValidationError, s)) /\
  (forall e s', create_habit r s = (inl e, s') -> e = ValidationError) /\
  (create_request_valid r = true ->
   create_habit r s =
     (inr (mkHabit (next_id (repo s)) (cr_name r) (cr_description r) Pending 0 None),
      mkSt (mkRepo (assign (next_id (repo s))
                      (mkHabit (next_id (repo s)) (cr_name r) (cr_description r)
                               Pending 0 None)
                      (habits (repo s)))
                   (next_id (repo s) + 1))
           (log s ++ [WriteCreate (next_id (repo s))]))).
Proof.
  assert (Hv : habit_valid (mkHabit (next_id (repo s)) (cr_name r) (cr_description r)
                                    Pending 0 None) = create_request_valid r).
  { unfold habit_valid, create_request_valid; simpl. now rewrite andb_true_r. }
  split; [|split; [|split]].
  - unfold CreateHabitRequest_new. destruct (name_ok n && description_ok d);
      split; intros H; try discriminate; reflexivity.
  - intros Hr. unfold create_habit, HabitRepository_create; unfold_monad.
    rewrite Hv, Hr. reflexivity.
  - unfold create_habit, HabitRepository_create; unfold_monad.
    rewrite Hv. destruct (create_request_valid r); simpl; intros e s' H;
      injection H; auto; discriminate.
  - intros Hr. unfold create_habit, HabitRepository_create; unfold_monad.
    rewrite Hv, Hr. reflexivity.
Qed.

(** ** C8: the empty update payload *)

Definition empty_update : UpdateHabitRequest := mkUpdateHabitRequest None None None.

(** Claim C8 as stated fails: on the empty store, the empty payload for id 1
    fails with [HabitNotFound], since existence is checked first. *)
Lemma update_habit_empty_missing_cex :
  update_habit 1 empty_update init_st =
    (inl (HabitNotFound 1), mkSt empty_repo [ReadOne 1]) /\
  ~ (exists f v c, fst (update_habit 1 empty_update init_st) = inl (InvalidHabitData f v c)).
Proof.
  split; [reflexivity|]. intros (f & v & c & H). discriminate H.
Qed.

(** Claim C8, amended. For every positive id, [update_habit] with a payload
    whose [name], [description] and [status] are all null fails after the
    single read of the habit and without any write: with [HabitNotFound] when
    no habit has that id (existence is checked first), and with
    [InvalidHabitData] when it exists. *)
Theorem update_habit_empty_payload (k : Z) (s : St) :
  0 < k ->
  update_habit k empty_update s =
    (inl (match lookup k (habits (repo s)) with
          | None => HabitNotFound k
          | Some _ => InvalidHabitData "update_request" (VText "empty")
                        "At least one field must be provided for update"
          end),
     mkSt (repo s) (log s ++ [ReadOne k])).
Proof.
  intros Hk. rewrite update_habit_eq.
  replace (k <=? 0) with false by (symmetry; apply Z.leb_gt; lia).
  destruct (lookup k (habits (repo s))); reflexivity.
Qed.

Lemma update_habit_empty_payload_witness :
  fst (update_habit 1 empty_update (reach after_create)) =
    inl (InvalidHabitData "update_request" (VText "empty")
           "At least one field must be provided for update").
Proof.
  rewrite (update_habit_empty_payload 1 (reach after_create)) by lia.
  reflexivity.
Defined.

(** ** C9: argument validation of [complete_habit_today] comes first *)

(** Claim C9. Whatever the store: a non-positive id fails with
    [InvalidHabitData] and a completion date after [today] fails with
    [InvalidHabitData] (for any id, stored or not), both before any store
    access (the state is returned untouched); and [HabitNotFound] is raised
    only when the id is positive and the date is not after [today]. *)
Theorem complete_habit_validates_first (today k : Z) (d : option Z) (D : Z) (s : St) :
  (k <= 0 -> exists f v c,
     complete_habit_today today k d s = (inl (InvalidHabitData f v c), s)) /\
  (today < D -> exists f v c,
     complete_habit_today today k (Some D) s = (inl (InvalidHabitData f v c), s)) /\
  (forall k' s', complete_habit_today today k d s = (inl (HabitNotFound k'), s') ->
     0 < k /\ pick d today <= today).
Proof.
  rewrite !complete_habit_today_eq. split; [|split].
  - intros Hk. rewrite (proj2 (Z.leb_le _ _) Hk). eexists _, _, _. reflexivity.
  - intros HD. destruct (k <=? 0); [eexists _, _, _; reflexivity|].
    simpl. rewrite (proj2 (Z.ltb_lt _ _) HD). eexists _, _, _. reflexivity.
  - intros k' s'. destruct (k <=? 0) eqn:Ek; [discriminate|].
    destruct (today <? pick d today) eqn:Et; [discriminate|].
    apply Z.leb_gt in Ek. apply Z.ltb_ge in Et. intros _. lia.
Qed.

Lemma complete_habit_validates_first_witness :
  (exists f v c, complete_habit_today jan15 0 None init_st =
                 (inl (InvalidHabitData f v c), init_st)) /\
  (exists f v c, complete_habit_today jan15 7 (Some (jan15 + 1)) init_st =
                 (inl (InvalidHabitData f v c), init_st)).
Proof.
  destruct (complete_habit_validates_first jan15 0 None (jan15 + 1) init_st) as [H0 _].
  destruct (complete_habit_validates_first jan15 7 None (jan15 + 1) init_st)
    as [_ [H1 _]].
  split; [apply H0; lia | apply H1; unfold jan15; lia].
Defined.

(** ** C10: a manual [completed] status without a completion *)

(** Claim C10. From the empty store, after creating a habit, [update_habit]
    with [status = completed] yields (and stores) a habit with
    [status = completed], [streak_days = 0] and [last_completed_at = None];
    [get_stats] then counts it in neither [completed_today] nor
    [active_streaks_ge_3], whatever the date. *)
Theorem manual_completed_status_not_counted :
  exists tr h' s',
    update_habit 1 (mkUpdateHabitRequest None None (Some Completed)) (reach tr) =
      (inr h', s') /\
    status h' = Completed /\ streak_days h' = 0 /\ last_completed_at h' = None /\
    habits (repo s') = [(1, h')] /\
    forall today, exists st,
      get_stats today s' = (inr st, mkSt (repo s') (log s' ++ [ReadAll])) /\
      total_habits st = 1 /\ completed_today st = 0 /\ active_streaks_ge_3 st = 0.
Proof.
  exists after_create.
  eexists; eexists. split; [vm_compute; reflexivity|].
  repeat split; try reflexivity.
  intros today. eexists. split; [reflexivity|]. repeat split.
Qed.

(** * Further properties of the code *)

Lemma lookup_remove_other (k k' : Z) (l : list (Z * Habit)) :
  k' <> k -> lookup k' (remove_key k l) = lookup k' l.
Proof.
  intros Hne. induction l as [|[k0 h0] l IH]; simpl; [reflexivity|].
  destruct (k =? k0) eqn:E; simpl.
  - apply Z.eqb_eq in E; subst k0. apply Z.eqb_neq in Hne. now rewrite Hne.
  - now rewrite IH.
Qed.

Lemma lookup_notin (k : Z) (l : list (Z * Habit)) :
  ~ In k (map fst l) -> lookup k l = None.
Proof.
  induction l as [|[k0 h0] l IH]; simpl; [reflexivity|].
  intros Hn. destruct (k =? k0) eqn:E.
  - apply Z.eqb_eq in E; subst. exfalso; auto.
  - auto.
Qed.

Lemma lookup_remove_self (k : Z) (l : list (Z * Habit)) :
  NoDup (map fst l) -> lookup k (remove_key k l) = None.
Proof.
  induction l as [|[k0 h0] l IH]; simpl; [reflexivity|].
  intros Hnd; inversion Hnd as [|x xs Hnin Hnd']; subst.
  destruct (k =? k0) eqn:E; simpl.
  - apply Z.eqb_eq in E; subst. now apply lookup_notin.
  - rewrite E. auto.
Qed.

Lemma create_habit_ok (r : CreateHabitRequest) (s : St) :
  create_request_valid r = true ->
  create_habit r s =
    (inr (mkHabit (next_id (repo s)) (cr_name r) (cr_description r) Pending 0 None),
     mkSt (mkRepo (assign (next_id (repo s))
                     (mkHabit (next_id (repo s)) (cr_name r) (cr_description r)
                              Pending 0 None)
                     (habits (repo s)))
                  (next_id (repo s) + 1))
          (log s ++ [WriteCreate (next_id (repo s))])).
Proof.
  intros Hr. unfold create_habit, HabitRepository_create; unfold_monad.
  replace (habit_valid _) with (create_request_valid r)
    by (unfold habit_valid, create_request_valid; simpl; now rewrite andb_true_r).
  rewrite Hr. reflexivity.
Qed.

(** ** Listing with a status filter *)


(** ** Round trips through the store *)

(** In a well-formed store, a valid [create_habit] followed by
    [get_habit_by_id] of the returned id gives back the created habit. *)
Theorem create_then_get (r : CreateHabitRequest) (s : St) :
  store_wf (repo s) -> create_request_valid r = true ->
  exists h s1,
    create_habit r s = (inr h, s1) /\
    get_habit_by_id (id h) s1 = (inr h, mkSt (repo s1) (log s1 ++ [ReadOne (id h)])).
Proof.
  intros (Hn & _) Hr. rewrite (create_habit_ok r s Hr). do 2 eexists. split; [reflexivity|].
  rewrite get_habit_by_id_eq. simpl.
  replace (next_id (repo s) <=? 0) with false by (symmetry; apply Z.leb_gt; lia).
  rewrite lookup_assign, Z.eqb_refl. reflexivity.
Qed.

Lemma create_then_get_witness :
  exists h s1, create_habit exercise init_st = (inr h, s1) /\
    get_habit_by_id (id h) s1 = (inr h, mkSt (repo s1) (log s1 ++ [ReadOne (id h)])).
Proof. apply create_then_get; [exact init_wf | reflexivity]. Defined.

(** After a successful [update_habit] of id [k], [get_habit_by_id k] returns
    the habit the update returned. *)
Theorem update_then_get (k : Z) (r : UpdateHabitRequest) (s s' : St) (h' : Habit) :
  update_habit k r s = (inr h', s') ->
  get_habit_by_id k s' = (inr h', mkSt (repo s') (log s' ++ [ReadOne k])).
Proof.
  rewrite update_habit_eq.
  destruct (k <=? 0) eqn:Ek; [discriminate|].
  destruct (lookup k (habits (repo s))) as [h|]; [|discriminate].
  destruct (_ && _ && _); [discriminate|].
  cbv zeta. case_valid V; [|discriminate].
  intros H; injection H as <- <-.
  rewrite get_habit_by_id_eq, Ek. simpl. rewrite lookup_assign, Z.eqb_refl.
  reflexivity.
Qed.

Lemma update_then_get_witness :
  get_habit_by_id 1 (snd (update_habit 1 (mkUpdateHabitRequest None None (Some Completed))
                                       (reach after_create))) =
  (inr (mkHabit 1 (of_ascii "Exercise") None Completed 0 None),
   mkSt (repo (snd (update_habit 1 (mkUpdateHabitRequest None None (Some Completed))
                                (reach after_create))))
        (log (snd (update_habit 1 (mkUpdateHabitRequest None None (Some Completed))
                                (reach after_create))) ++ [ReadOne 1])).
Proof.
  apply (update_then_get 1 (mkUpdateHabitRequest None None (Some Completed))
           (reach after_create)).
  vm_compute. reflexivity.
Defined.

(** ** Deletion *)

(** In a well-formed store, after [delete_habit k] succeeds, fetching [k]
    fails with [HabitNotFound], deleting [k] again fails with [HabitNotFound]
    without any store change, and every other id keeps its record. *)
Theorem delete_then_missing (k : Z) (s s' : St) :
  store_wf (repo s) ->
  delete_habit k s = (inr tt, s') ->
  fst (get_habit_by_id k s') = inl (HabitNotFound k) /\
  delete_habit k s' = (inl (HabitNotFound k), s') /\
  (forall k', k' <> k -> lookup k' (habits (repo s')) = lookup k' (habits (repo s))).
Proof.
  intros (_ & Hnd & _). rewrite delete_habit_eq.
  destruct (k <=? 0) eqn:Ek; [discriminate|].
  destruct (lookup k (habits (repo s))); [|discriminate].
  intros H; injection H as <-.
  rewrite get_habit_by_id_eq, delete_habit_eq, Ek. simpl.
  rewrite lookup_remove_self by assumption.
  split; [reflexivity|]. split; [reflexivity|].
  intros k' Hk'. now apply lookup_remove_other.
Qed.

Lemma delete_then_missing_witness :
  fst (get_habit_by_id 1 (snd (delete_habit 1 (reach after_create)))) =
    inl (HabitNotFound 1).
Proof.
  destruct (delete_then_missing 1 (reach after_create)
              (snd (delete_habit 1 (reach after_create)))) as [H _];
    [apply reach_wf | vm_compute; reflexivity | exact H].
Defined.

(** ** [clear] *)

(** [HabitRepository.clear] empties the store and restarts the identifiers:
    the next valid [create_habit] gets id 1 again, whatever ids were handed
    out before (so, unlike deletion, [clear] lets an id be reused). *)
Theorem clear_then_create (r : CreateHabitRequest) (s : St) :
  create_request_valid r = true ->
  exists h s1,
    bind HabitRepository_clear (fun _ => create_habit r) s = (inr h, s1) /\
    id h = 1 /\ habits (repo s1) = [(1, h)].
Proof.
  intros Hr. unfold bind at 1. unfold HabitRepository_clear, put_repo.
  rewrite (create_habit_ok r _ Hr). simpl. do 2 eexists. auto.
Qed.

Lemma clear_then_create_witness :
  exists h s1,
    bind HabitRepository_clear (fun _ => create_habit exercise) (reach scenario) =
      (inr h, s1) /\ id h = 1 /\ habits (repo s1) = [(1, h)].
Proof. apply clear_then_create. reflexivity. Defined.

(** ** Order of [get_all] *)

(** The dict keeps insertion order: a successful [create_habit] appends the
    new id at the end of the stored ids, and successful [update_habit] and
    [complete_habit_today] calls leave the sequence of stored ids (hence the
    order [get_all] and [get_habits] list habits in) unchanged. *)
Theorem store_order (s : St) :
  store_wf (repo s) ->
  (forall r h s', create_habit r s = (inr h, s') ->
     map fst (habits (repo s')) = map fst (habits (repo s)) ++ [id h]) /\
  (forall k r h s', update_habit k r s = (inr h, s') ->
     map fst (habits (repo s')) = map fst (habits (repo s))) /\
  (forall today k d h s', complete_habit_today today k d s = (inr h, s') ->
     map fst (habits (repo s')) = map fst (habits (repo s))).
Proof.
  intros Hwf. split; [|split].
  - intros r h s' Hc. apply create_spec in Hc as [[Hc _]|(_ & Hc & ->)]; [discriminate|].
    injection Hc as ->. simpl. apply keys_assign_new.
    destruct Hwf as (_ & _ & Hall). rewrite Forall_forall in Hall.
    intros Hin. apply in_map_iff in Hin as [p [Hp Hin]].
    specialize (Hall p Hin). lia.
  - intros k r h s'. rewrite update_habit_eq.
    destruct (k <=? 0); [discriminate|].
    destruct (lookup k (habits (repo s))) as [cur|] eqn:L; [|discriminate].
    destruct (_ && _ && _); [discriminate|].
    cbv zeta. case_valid V; [|discriminate].
    intros H; injection H as _ <-. simpl. apply keys_assign_in.
    apply (in_map fst (habits (repo s)) (k, cur)). now apply lookup_In.
  - intros today k d h s'. rewrite complete_habit_today_eq.
    destruct (k <=? 0); [discriminate|].
    destruct (today <? pick d today); [discriminate|].
    destruct (lookup k (habits (repo s))) as [cur|] eqn:L; [|discriminate].
    destruct (opt_date_eqb _ _); [discriminate|].
    cbv zeta. case_valid V; [|discriminate].
    intros H; injection H as _ <-. simpl. apply keys_assign_in.
    apply (in_map fst (habits (repo s)) (k, cur)). now apply lookup_In.
Qed.

Lemma store_order_witness :
  map fst (habits (repo (snd (create_habit exercise (reach after_create))))) = [1; 2].
Proof.
  destruct (store_order (reach after_create) (reach_wf _)) as [Hc _].
  rewrite (Hc exercise (mkHabit 2 (of_ascii "Exercise") None Pending 0 None)
              (snd (create_habit exercise (reach after_create))))
    by (vm_compute; reflexivity).
  vm_compute. reflexivity.
Defined.

(** ** The HTTP endpoints *)

Lemma merge_request_valid (h : Habit) (r : UpdateHabitRequest) :
  habit_valid h = true -> update_request_valid r = true ->
  habit_valid (merge h (request_updates r)) = true.
Proof.
  unfold habit_valid, update_request_valid, merge, request_updates.
  destruct (ur_name r), (ur_description r); simpl; rewrite !andb_true_iff; intuition.
Qed.

Lemma merge_completion_valid (h : Habit) (d : Z) :
  habit_valid h = true -> habit_valid (merge h (completion_updates h d)) = true.
Proof.
  unfold habit_valid, merge, completion_updates; simpl.
  intros Hv. apply andb_prop in Hv as [Hnd Hs]. rewrite Hnd. simpl.
  apply Z.leb_le. apply Z.leb_le in Hs.
  pose proof (calculate_new_streak_pos h d Hs). lia.
Qed.

(** [POST /habits] answers 201 exactly when the name has 1..80 characters
    and the description at most 280, and 422 otherwise; never 400 or 500. *)
Theorem post_habits_status (n : text) (d : option text) (s : St) :
  fst (post_habits n d s) = if name_ok n && description_ok d then 201 else 422.
Proof.
  unfold post_habits, CreateHabitRequest_new.
  destruct (name_ok n && description_ok d) eqn:V; [|reflexivity].
  unfold respond. rewrite create_habit_ok by exact V. reflexivity.
Qed.

(** On a well-formed store, [PATCH /habits/{habit_id}] answers 422 for a body
    failing the request model, then 400 for a non-positive id, 404 for an
    absent habit, 400 for an empty body, and 200 otherwise; never 500. *)
Theorem patch_habit_status (k : Z) (n d : option text) (st : option Status) (s : St) :
  store_wf (repo s) ->
  fst (patch_habit k n d st s) =
    if negb (update_request_valid (mkUpdateHabitRequest n d st)) then 422 else
    if k <=? 0 then 400 else
    match lookup k (habits (repo s)) with
    | None => 404
    | Some _ => if opt_is_none n && opt_is_none d && opt_is_none st then 400 else 200
    end.
Proof.
  intros Hwf. unfold patch_habit, UpdateHabitRequest_new.
  destruct (update_request_valid (mkUpdateHabitRequest n d st)) eqn:Vr; [|reflexivity].
  simpl. unfold respond. rewrite update_habit_eq.
  destruct (k <=? 0); [reflexivity|].
  destruct (lookup k (habits (repo s))) as [h|] eqn:L; [|reflexivity].
  simpl. destruct (opt_is_none n && opt_is_none d && opt_is_none st); [reflexivity|].
  destruct (wf_lookup _ _ _ Hwf L) as (_ & _ & Hv & _).
  rewrite (merge_request_valid h _ Hv Vr). reflexivity.
Qed.

Lemma patch_habit_status_witness :
  fst (patch_habit 1 None None None (reach after_create)) = 400 /\
  fst (patch_habit 2 None None (Some Completed) (reach after_create)) = 404 /\
  fst (patch_habit 1 (Some []) None None (reach after_create)) = 422 /\
  fst (patch_habit 1 None None (Some Completed) (reach after_create)) = 200.
Proof.
  pose proof (patch_habit_status 1 None None None (reach after_create) (reach_wf _)) as H1.
  pose proof (patch_habit_status 2 None None (Some Completed) (reach after_create)
                (reach_wf _)) as H2.
  pose proof (patch_habit_status 1 (Some []) None None (reach after_create)
                (reach_wf _)) as H3.
  pose proof (patch_habit_status 1 None None (Some Completed) (reach after_create)
                (reach_wf _)) as H4.
  rewrite H1, H2, H3, H4. vm_compute. auto.
Defined.

(** [DELETE /habits/{habit_id}] answers 400 for a non-positive id, 404 for
    an absent habit and 204 otherwise. *)
Theorem delete_route_status (k : Z) (s : St) :
  fst (delete_route k s) =
    if k <=? 0 then 400 else
    match lookup k (habits (repo s)) with None => 404 | Some _ => 204 end.
Proof.
  unfold delete_route, respond. rewrite delete_habit_eq.
  destruct (k <=? 0); [reflexivity|].
  destruct (lookup k (habits (repo s))); reflexivity.
Qed.

(** On a well-formed store, [POST /habits/{habit_id}/complete] (which
    completes for [today]) answers 400 only for a non-positive id, 404 for an
    absent habit, 409 when the habit was last completed [today], and 200
    otherwise; the future-date error and 500 cannot occur. *)
Theorem complete_route_status (today k : Z) (s : St) :
  store_wf (repo s) ->
  fst (complete_route today k s) =
    if k <=? 0 then 400 else
    match lookup k (habits (repo s)) with
    | None => 404
    | Some h => if opt_date_eqb (last_completed_at h) today then 409 else 200
    end.
Proof.
  intros Hwf. unfold complete_route, respond. rewrite complete_habit_today_eq.
  destruct (k <=? 0); [reflexivity|]. simpl. rewrite Z.ltb_irrefl.
  destruct (lookup k (habits (repo s))) as [h|] eqn:L; [|reflexivity].
  destruct (opt_date_eqb _ _); [reflexivity|].
  destruct (wf_lookup _ _ _ Hwf L) as (_ & _ & Hv & _).
  cbv zeta. rewrite (merge_completion_valid h today Hv). reflexivity.
Qed.

Lemma complete_route_status_witness :
  fst (complete_route jan15 1 (reach after_create)) = 200 /\
  fst (complete_route jan15 1 (reach after_complete)) = 409.
Proof.
  rewrite (complete_route_status jan15 1 _ (reach_wf after_create)),
          (complete_route_status jan15 1 _ (reach_wf after_complete)).
  vm_compute. auto.
Defined.

(** ** Statistics *)

(** The counts of [get_stats] are non-negative and at most [total_habits]. *)
Theorem get_stats_bounds (today : Z) (s : St) :
  exists st, get_stats today s = (inr st, mkSt (repo s) (log s ++ [ReadAll])) /\
    0 <= completed_today st <= total_habits st /\
    0 <= active_streaks_ge_3 st <= total_habits st.
Proof.
  rewrite get_stats_eq, !sum_ones_filter. eexists. split; [reflexivity|]. simpl.
  pose proof (filter_length_le (fun h => opt_date_eqb (last_completed_at h) today)
                               (map snd (habits (repo s)))).
  pose proof (filter_length_le (fun h => 3 <=? streak_days h) (map snd (habits (repo s)))).
  lia.
Qed.

Lemma In_assign_self (k : Z) (v : Habit) (l : list (Z * Habit)) :
  In (k, v) (assign k v l).
Proof.
  induction l as [|[k0 h0] l IH]; simpl; [now left|].
  destruct (k =? k0) eqn:E; simpl.
  - apply Z.eqb_eq in E; subst. now left.
  - now right.
Qed.

Lemma sum_ones_pos (p : Habit -> bool) (hs : list Habit) (h : Habit) :
  In h hs -> p h = true -> 1 <= sum_ones p hs.
Proof.
  rewrite sum_ones_filter. intros Hin Hp.
  assert (Hf : In h (filter p hs)) by (apply filter_In; auto).
  destruct (filter p hs); [destruct Hf|]. simpl. lia.
Qed.

(** A successful completion for [today] (the date omitted, as the complete
    endpoint calls it) is counted by [get_stats] in [completed_today] for
    that same [today]. *)
Theorem complete_counted_today (today k : Z) (s s' : St) (h : Habit) :
  complete_habit_today today k None s = (inr h, s') ->
  exists st, fst (get_stats today s') = inr st /\ 1 <= completed_today st.
Proof.
  rewrite complete_habit_today_eq. simpl.
  destruct (k <=? 0); [discriminate|]. rewrite Z.ltb_irrefl.
  destruct (lookup k (habits (repo s))) as [cur|]; [|discriminate].
  destruct (opt_date_eqb _ _); [discriminate|].
  cbv zeta. case_valid V; [|discriminate].
  intros H; injection H as <- <-.
  eexists. split; [reflexivity|]. simpl.
  apply (sum_ones_pos _ _ (merge cur (completion_updates cur today))).
  - apply (in_map snd _ (k, _)). apply In_assign_self.
  - simpl. apply Z.eqb_refl.
Qed.

Lemma complete_counted_today_witness :
  exists st, fst (get_stats jan15 (snd (complete_habit_today jan15 1 None
                                         (reach after_create)))) = inr st /\
             1 <= completed_today st.
Proof.
  apply (complete_counted_today jan15 1 (reach after_create) _
           (mkHabit 1 (of_ascii "Exercise") None Completed 1 (Some jan15))).
  vm_compute. reflexivity.
Defined.

(** ** The [Habit] model on every reachable store *)

(** Every store reached from the empty one by service calls holds only
    records that pass the [Habit] model's validation (name of 1..80
    characters, description of at most 280, [streak_days >= 0]), each stored
    under its own [id], with distinct ids between 1 and [next_id - 1]. *)
Theorem reachable_habits_valid (tr : Trace) :
  NoDup (map fst (habits (repo (reach tr)))) /\
  forall k h, In (k, h) (habits (repo (reach tr))) ->
    id h = k /\ 1 <= k < next_id (repo (reach tr)) /\
    (1 <= List.length (name h) <= 80)%nat /\
    match description h with
    | None => True | Some t => (List.length t <= 280)%nat end /\
    0 <= streak_days h.
Proof.
  destruct (reach_wf tr) as (_ & Hnd & Hall). split; [exact Hnd|].
  rewrite Forall_forall in Hall. intros k h Hin.
  destruct (Hall _ Hin) as (Hk & Hid & Hv & _); simpl in *.
  unfold habit_valid, name_ok, description_ok in Hv.
  rewrite !andb_true_iff, !Nat.leb_le, Z.leb_le in Hv.
  destruct Hv as [[[H1 H2] Hd] Hs].
  split; [exact Hid|]. split; [lia|]. split; [lia|]. split; [|exact Hs].
  destruct (description h); [now apply Nat.leb_le|exact I].
Qed.
